(** * FlamesComp: the MIPS instruction decoder of [debugger.py]

    A shallow embedding of [decode_instruction] and the properties of its
    decoding table: totality, jump and branch target arithmetic, the NOP
    special case, immediates, load/store tags and independence of the
    program counter.

    Python integers are unbounded, so [word] and [pc] are elements of [Z];
    [>>], [<<], [&] and [|] are [Z.shiftr], [Z.shiftl], [Z.land] and [Z.lor],
    which agree with Python on negative numbers too (infinite two's
    complement).  No operation of the function can raise on integers: the
    shift counts are the positive literals of the source. *)

From Stdlib Require Import ZArith List String Bool Lia.
Import ListNotations.
Local Open Scope string_scope.
Local Open Scope Z_scope.

(** ** Data model *)

(** An element of the [args] tuple: a mnemonic or tag, an integer field, the
    link flag of a jump, or [None] (the absent register of BLEZ and BGTZ). *)
Inductive value : Type :=
| VStr (s : string)
| VInt (z : Z)
| VBool (b : bool)
| VNone.

(** The dataclass [DecodedInstr]: a category name and a tuple of operands. *)
Record DecodedInstr : Type := mkDecodedInstr {
  type : string;
  args : list value
}.

(** ** Field extraction, as the assignments of [decode_instruction] *)

Module Fields.

Definition op (word : Z) : Z := Z.land (Z.shiftr word 26) 0x3F.
Definition rs (word : Z) : Z := Z.land (Z.shiftr word 21) 0x1F.
Definition rt (word : Z) : Z := Z.land (Z.shiftr word 16) 0x1F.
Definition rd (word : Z) : Z := Z.land (Z.shiftr word 11) 0x1F.
Definition shamt (word : Z) : Z := Z.land (Z.shiftr word 6) 0x1F.
Definition funct (word : Z) : Z := Z.land word 0x3F.
Definition imm (word : Z) : Z := Z.land word 0xFFFF.
Definition target (word : Z) : Z := Z.land word 0x03FFFFFF.

(** [imm_signed = imm if imm < 0x8000 else imm - 0x10000] *)
Definition imm_signed (word : Z) : Z :=
  if imm word <? 0x8000 then imm word else imm word - 0x10000.

End Fields.
Import Fields.

(** ** The decoder *)

(** The branch of [decode_instruction] taken when [op == 0]. *)
Definition decode_rtype (word : Z) : DecodedInstr :=
  let rs := rs word in
  let rt := rt word in
  let rd := rd word in
  let shamt := shamt word in
  let funct := funct word in
  if (funct =? 0x20) || (funct =? 0x21) then
    mkDecodedInstr "arith" [VStr "ADD"; VInt rd; VInt rs; VInt rt]
  else if (funct =? 0x22) || (funct =? 0x23) then
    mkDecodedInstr "arith" [VStr "SUB"; VInt rd; VInt rs; VInt rt]
  else if funct =? 0x24 then
    mkDecodedInstr "arith" [VStr "AND"; VInt rd; VInt rs; VInt rt]
  else if funct =? 0x25 then
    mkDecodedInstr "arith" [VStr "OR"; VInt rd; VInt rs; VInt rt]
  else if funct =? 0x26 then
    mkDecodedInstr "arith" [VStr "XOR"; VInt rd; VInt rs; VInt rt]
  else if funct =? 0x27 then
    mkDecodedInstr "arith" [VStr "NOR"; VInt rd; VInt rs; VInt rt]
  else if funct =? 0x2A then
    mkDecodedInstr "arith" [VStr "SLT"; VInt rd; VInt rs; VInt rt]
  else if funct =? 0x2B then
    mkDecodedInstr "arith" [VStr "SLTU"; VInt rd; VInt rs; VInt rt]
  else if funct =? 0x00 then
    if (rs =? 0) && (rt =? 0) && (rd =? 0) && (shamt =? 0) then
      mkDecodedInstr "nop" []
    else
      mkDecodedInstr "shift" [VStr "SLL"; VInt rd; VInt rt; VInt shamt]
  else if funct =? 0x02 then
    mkDecodedInstr "shift" [VStr "SRL"; VInt rd; VInt rt; VInt shamt]
  else if funct =? 0x03 then
    mkDecodedInstr "shift" [VStr "SRA"; VInt rd; VInt rt; VInt shamt]
  else if funct =? 0x08 then
    mkDecodedInstr "jr" [VInt rs]
  else if funct =? 0x09 then
    mkDecodedInstr "jalr" [VInt rd; VInt rs]
  else if funct =? 0x10 then
    mkDecodedInstr "mfhi" [VInt rd]
  else if funct =? 0x12 then
    mkDecodedInstr "mflo" [VInt rd]
  else if funct =? 0x11 then
    mkDecodedInstr "mthi" [VInt rs]
  else if funct =? 0x13 then
    mkDecodedInstr "mtlo" [VInt rs]
  else if funct =? 0x18 then
    mkDecodedInstr "mult" [VInt rs; VInt rt]
  else if funct =? 0x19 then
    mkDecodedInstr "multu" [VInt rs; VInt rt]
  else if funct =? 0x1A then
    mkDecodedInstr "div" [VInt rs; VInt rt]
  else if funct =? 0x1B then
    mkDecodedInstr "divu" [VInt rs; VInt rt]
  else
    mkDecodedInstr "unknown"
      [VStr "SPECIAL"; VInt funct; VInt rs; VInt rt; VInt rd; VInt shamt].

(** The branch taken when [op == 0x02 or op == 0x03]. *)
Definition decode_jtype (op word pc : Z) : DecodedInstr :=
  let target := target word in
  let target_addr := Z.lor (Z.land (pc + 4) 0xF0000000) (Z.shiftl target 2) in
  if op =? 0x02 then
    mkDecodedInstr "jump" [VInt target_addr; VBool false]
  else
    mkDecodedInstr "jump" [VInt target_addr; VBool true].

(** The final [else] branch: the I-type instructions. *)
Definition decode_itype (op word pc : Z) : DecodedInstr :=
  let rs := rs word in
  let rt := rt word in
  let imm := imm word in
  let imm_signed := if imm <? 0x8000 then imm else imm - 0x10000 in
  if op =? 0x04 then
    let target_addr := pc + 4 + Z.shiftl imm_signed 2 in
    mkDecodedInstr "branch" [VStr "BEQ"; VInt rs; VInt rt; VInt target_addr]
  else if op =? 0x05 then
    let target_addr := pc + 4 + Z.shiftl imm_signed 2 in
    mkDecodedInstr "branch" [VStr "BNE"; VInt rs; VInt rt; VInt target_addr]
  else if op =? 0x06 then
    let target_addr := pc + 4 + Z.shiftl imm_signed 2 in
    mkDecodedInstr "branch" [VStr "BLEZ"; VInt rs; VNone; VInt target_addr]
  else if op =? 0x07 then
    let target_addr := pc + 4 + Z.shiftl imm_signed 2 in
    mkDecodedInstr "branch" [VStr "BGTZ"; VInt rs; VNone; VInt target_addr]
  else if (op =? 0x08) || (op =? 0x09) then
    mkDecodedInstr "imm" [VStr "ADD"; VInt rt; VInt rs; VInt imm_signed]
  else if (op =? 0x0A) || (op =? 0x0B) then
    let cmp_type := if op =? 0x0A then "SLT" else "SLTU" in
    mkDecodedInstr "imm" [VStr cmp_type; VInt rt; VInt rs; VInt imm_signed]
  else if op =? 0x0C then
    mkDecodedInstr "imm" [VStr "AND"; VInt rt; VInt rs; VInt imm]
  else if op =? 0x0D then
    mkDecodedInstr "imm" [VStr "OR"; VInt rt; VInt rs; VInt imm]
  else if op =? 0x0E then
    mkDecodedInstr "imm" [VStr "XOR"; VInt rt; VInt rs; VInt imm]
  else if op =? 0x0F then
    mkDecodedInstr "lui" [VInt rt; VInt imm]
  else if op =? 0x20 then
    mkDecodedInstr "load" [VStr "BYTE_S"; VInt rt; VInt rs; VInt imm_signed]
  else if op =? 0x24 then
    mkDecodedInstr "load" [VStr "BYTE_U"; VInt rt; VInt rs; VInt imm_signed]
  else if op =? 0x21 then
    mkDecodedInstr "load" [VStr "HALF_S"; VInt rt; VInt rs; VInt imm_signed]
  else if op =? 0x25 then
    mkDecodedInstr "load" [VStr "HALF_U"; VInt rt; VInt rs; VInt imm_signed]
  else if op =? 0x23 then
    mkDecodedInstr "load" [VStr "WORD"; VInt rt; VInt rs; VInt imm_signed]
  else if op =? 0x28 then
    mkDecodedInstr "store" [VStr "BYTE"; VInt rt; VInt rs; VInt imm_signed]
  else if op =? 0x29 then
    mkDecodedInstr "store" [VStr "HALF"; VInt rt; VInt rs; VInt imm_signed]
  else if op =? 0x2B then
    mkDecodedInstr "store" [VStr "WORD"; VInt rt; VInt rs; VInt imm_signed]
  else
    mkDecodedInstr "unknown" [VStr "OP"; VInt op; VInt rs; VInt rt; VInt imm_signed].

(** [decode_instruction(word, pc)]: the three-way dispatch on the primary
    opcode. *)
Definition decode_instruction (word pc : Z) : DecodedInstr :=
  let op := op word in
  if op =? 0 then decode_rtype word
  else if (op =? 0x02) || (op =? 0x03) then decode_jtype op word pc
  else decode_itype op word pc.

(** ** Reading the payload *)

(** The computed address of a jump ([args[0]]) or of a branch ([args[3]]). *)
Definition target_addr (d : DecodedInstr) : option Z :=
  if String.eqb (type d) "jump" then
    match args d with VInt a :: _ => Some a | _ => None end
  else if String.eqb (type d) "branch" then
    match args d with [_; _; _; VInt a] => Some a | _ => None end
  else None.

(** The link flag of a jump ([args[1]]). *)
Definition link_flag (d : DecodedInstr) : option bool :=
  if String.eqb (type d) "jump" then
    match args d with [_; VBool b] => Some b | _ => None end
  else None.

(** The width tag of a load or store ([args[0]]). *)
Definition width_tag (d : DecodedInstr) : option string :=
  if String.eqb (type d) "load" || String.eqb (type d) "store" then
    match args d with VStr t :: _ => Some t | _ => None end
  else None.

(** The constant of an immediate-arithmetic payload ([args[3]]). *)
Definition imm_constant (d : DecodedInstr) : option Z :=
  if String.eqb (type d) "imm" then
    match args d with [_; _; _; VInt c] => Some c | _ => None end
  else None.

(** ** The decoding tables, as the comparisons of the source list them *)

(** The category names [decode_instruction] can return. *)
Definition categories : list string :=
  ["arith"; "imm"; "shift"; "load"; "store"; "branch"; "jump"; "jr"; "jalr";
   "mfhi"; "mflo"; "mthi"; "mtlo"; "mult"; "multu"; "div"; "divu"; "lui";
   "nop"; "unknown"].

(** The [funct] values the register form compares against. *)
Definition known_funct : list Z :=
  [0x20; 0x21; 0x22; 0x23; 0x24; 0x25; 0x26; 0x27; 0x2A; 0x2B; 0x00; 0x02;
   0x03; 0x08; 0x09; 0x10; 0x12; 0x11; 0x13; 0x18; 0x19; 0x1A; 0x1B].

(** The non-zero primary opcodes the function compares against. *)
Definition known_op : list Z :=
  [0x02; 0x03; 0x04; 0x05; 0x06; 0x07; 0x08; 0x09; 0x0A; 0x0B; 0x0C; 0x0D;
   0x0E; 0x0F; 0x20; 0x24; 0x21; 0x25; 0x23; 0x28; 0x29; 0x2B].

Definition jump_ops : list Z := [0x02; 0x03].
Definition branch_ops : list Z := [0x04; 0x05; 0x06; 0x07].
Definition load_store_ops : list Z :=
  [0x20; 0x21; 0x23; 0x24; 0x25; 0x28; 0x29; 0x2B].

(** The category and width tag each load/store opcode is given by the
    source, in the order of [load_store_ops]. *)
Definition load_store_table : list (Z * (string * string)) :=
  [(0x20, ("load", "BYTE_S")); (0x21, ("load", "HALF_S"));
   (0x23, ("load", "WORD")); (0x24, ("load", "BYTE_U"));
   (0x25, ("load", "HALF_U")); (0x28, ("store", "BYTE"));
   (0x29, ("store", "HALF")); (0x2B, ("store", "WORD"))].

(** A 32-bit unsigned value. *)
Definition word32 (w : Z) : Prop := 0 <= w < 2 ^ 32.

(** Whether a width tag ends in a signedness suffix ([_S] or [_U]). *)
Definition has_signedness (t : string) : bool :=
  let n := String.length t in
  String.eqb (substring (n - 2) 2 t) "_S"
  || String.eqb (substring (n - 2) 2 t) "_U".

(** ** Payload shapes *)

Definition load_ops : list Z := [0x20; 0x21; 0x23; 0x24; 0x25].
Definition store_ops : list Z := [0x28; 0x29; 0x2B].
Definition signed_imm_ops : list Z := [0x08; 0x09; 0x0A; 0x0B].
Definition unsigned_imm_ops : list Z := [0x0C; 0x0D; 0x0E].

(** The categories only the register form ([op == 0]) returns. *)
Definition register_categories : list string :=
  ["arith"; "shift"; "nop"; "jr"; "jalr"; "mfhi"; "mflo"; "mthi"; "mtlo";
   "mult"; "multu"; "div"; "divu"].

(** An integer operand within [lo, hi). *)
Definition in_range (lo hi : Z) (v : value) : bool :=
  match v with
  | VInt z => (lo <=? z) && (z <? hi)
  | _ => false
  end.

(** A register index, 0 to 31. *)
Definition is_reg (v : value) : bool := in_range 0 32 v.

(** A string operand that is one of the names of [l]. *)
Definition one_of (l : list string) (v : value) : bool :=
  match v with
  | VStr s => existsb (String.eqb s) l
  | _ => false
  end.

(** The shape of the [args] tuple that goes with each category: arity,
    kind of every operand, the mnemonics and tags in use, and the range of
    every integer except a branch target. *)
Definition well_formed (d : DecodedInstr) : bool :=
  let t := type d in
  let a := args d in
  if String.eqb t "arith" then
    match a with
    | [m; x; y; z] =>
        one_of ["ADD"; "SUB"; "AND"; "OR"; "XOR"; "NOR"; "SLT"; "SLTU"] m
        && is_reg x && is_reg y && is_reg z
    | _ => false
    end
  else if String.eqb t "imm" then
    match a with
    | [m; x; y; c] =>
        is_reg x && is_reg y
        && ((one_of ["ADD"; "SLT"; "SLTU"] m && in_range (- 0x8000) 0x8000 c)
            || (one_of ["AND"; "OR"; "XOR"] m && in_range 0 0x10000 c))
    | _ => false
    end
  else if String.eqb t "shift" then
    match a with
    | [m; x; y; s] =>
        one_of ["SLL"; "SRL"; "SRA"] m && is_reg x && is_reg y && is_reg s
    | _ => false
    end
  else if String.eqb t "load" then
    match a with
    | [m; x; y; o] =>
        one_of ["BYTE_S"; "BYTE_U"; "HALF_S"; "HALF_U"; "WORD"] m
        && is_reg x && is_reg y && in_range (- 0x8000) 0x8000 o
    | _ => false
    end
  else if String.eqb t "store" then
    match a with
    | [m; x; y; o] =>
        one_of ["BYTE"; "HALF"; "WORD"] m
        && is_reg x && is_reg y && in_range (- 0x8000) 0x8000 o
    | _ => false
    end
  else if String.eqb t "branch" then
    match a with
    | [m; x; VNone; VInt _] => one_of ["BLEZ"; "BGTZ"] m && is_reg x
    | [m; x; y; VInt _] => one_of ["BEQ"; "BNE"] m && is_reg x && is_reg y
    | _ => false
    end
  else if String.eqb t "jump" then
    match a with
    | [tgt; VBool _] => in_range 0 (2 ^ 32) tgt
    | _ => false
    end
  else if String.eqb t "jr" || String.eqb t "mfhi" || String.eqb t "mflo"
          || String.eqb t "mthi" || String.eqb t "mtlo" then
    match a with
    | [x] => is_reg x
    | _ => false
    end
  else if String.eqb t "jalr" || String.eqb t "mult" || String.eqb t "multu"
          || String.eqb t "div" || String.eqb t "divu" then
    match a with
    | [x; y] => is_reg x && is_reg y
    | _ => false
    end
  else if String.eqb t "lui" then
    match a with
    | [x; c] => is_reg x && in_range 0 0x10000 c
    | _ => false
    end
  else if String.eqb t "nop" then
    match a with
    | [] => true
    | _ => false
    end
  else if String.eqb t "unknown" then
    match a with
    | [VStr "SPECIAL"; f; x; y; z; s] =>
        in_range 0 64 f && is_reg x && is_reg y && is_reg z && is_reg s
    | [VStr "OP"; o; x; y; c] =>
        in_range 0 64 o && is_reg x && is_reg y && in_range (- 0x8000) 0x8000 c
    | _ => false
    end
  else false.

(** The mnemonic the source gives each immediate-arithmetic opcode. *)
Definition imm_mnemonics : list (Z * string) :=
  [(0x08, "ADD"); (0x09, "ADD"); (0x0A, "SLT"); (0x0B, "SLTU");
   (0x0C, "AND"); (0x0D, "OR"); (0x0E, "XOR")].

(** ** Proof automation for the chained conditionals *)

Ltac bool_facts :=
  repeat match goal with
    | H : (_ || _)%bool = true |- _ => apply orb_true_iff in H
    | H : (_ || _)%bool = false |- _ => apply orb_false_iff in H; destruct H
    | H : (_ && _)%bool = true |- _ => apply andb_true_iff in H; destruct H
    | H : (_ && _)%bool = false |- _ => apply andb_false_iff in H
    | H : (_ =? _) = true |- _ => apply Z.eqb_eq in H
    | H : (_ =? _) = false |- _ => apply Z.eqb_neq in H
    | H : (_ <? _) = true |- _ => apply Z.ltb_lt in H
    | H : (_ <? _) = false |- _ => apply Z.ltb_ge in H
    end.

Ltac split_ifs :=
  repeat match goal with
    | |- context [if ?c then _ else _] => destruct c eqn:?
    end.

Ltac in_list :=
  repeat match goal with
    | H : In _ (_ :: _) |- _ => destruct H as [H | H]
    | H : In _ [] |- _ => destruct H
    | H : ~ In _ (_ :: _) |- _ => apply not_in_cons in H; destruct H
    end.

(** ** Two sample decodings *)

Example jump_sample :
  decode_instruction 0x08000010 0x0FFFFFFC
  = mkDecodedInstr "jump" [VInt 0x10000040; VBool false].
Proof. reflexivity. Qed.

Example beq_sample :
  decode_instruction 0x10220004 0x1000
  = mkDecodedInstr "branch" [VStr "BEQ"; VInt 1; VInt 2; VInt 0x1014].
Proof. reflexivity. Qed.

(** ** Field ranges and sign extension *)

Lemma land_ones_range (x n : Z) : 0 <= n -> 0 <= Z.land x (Z.ones n) < 2 ^ n.
Proof.
  intros Hn. rewrite Z.land_ones by exact Hn.
  apply Z.mod_pos_bound. apply Z.pow_pos_nonneg; lia.
Qed.

Lemma op_range (w : Z) : 0 <= op w < 64.
Proof. exact (land_ones_range (Z.shiftr w 26) 6 ltac:(lia)). Qed.

Lemma rs_range (w : Z) : 0 <= rs w < 32.
Proof. exact (land_ones_range (Z.shiftr w 21) 5 ltac:(lia)). Qed.

Lemma rt_range (w : Z) : 0 <= rt w < 32.
Proof. exact (land_ones_range (Z.shiftr w 16) 5 ltac:(lia)). Qed.

Lemma rd_range (w : Z) : 0 <= rd w < 32.
Proof. exact (land_ones_range (Z.shiftr w 11) 5 ltac:(lia)). Qed.

Lemma shamt_range (w : Z) : 0 <= shamt w < 32.
Proof. exact (land_ones_range (Z.shiftr w 6) 5 ltac:(lia)). Qed.

Lemma funct_range (w : Z) : 0 <= funct w < 64.
Proof. exact (land_ones_range w 6 ltac:(lia)). Qed.

Lemma imm_range (w : Z) : 0 <= imm w < 0x10000.
Proof. exact (land_ones_range w 16 ltac:(lia)). Qed.

Lemma target_range (w : Z) : 0 <= target w < 0x4000000.
Proof. exact (land_ones_range w 26 ltac:(lia)). Qed.

Lemma imm_mod (w : Z) : imm w = w mod 0x10000.
Proof. unfold imm. change 0xFFFF with (Z.ones 16). now rewrite Z.land_ones. Qed.

(** Bit 15 of the word is the sign bit of the immediate. *)
Lemma imm_sign_bit (w : Z) : Z.testbit w 15 = negb (imm w <? 0x8000).
Proof.
  rewrite imm_mod.
  pose proof (Z.testbit_spec' w 15 ltac:(lia)) as Hb.
  change (2 ^ 15) with 0x8000 in Hb.
  destruct (Z.testbit w 15); cbn [Z.b2z] in Hb;
    destruct (w mod 0x10000 <? 0x8000) eqn:Hlt; bool_facts; try reflexivity;
    exfalso; revert Hb Hlt; Z.div_mod_to_equations; lia.
Qed.

(** [imm_signed] is the two's-complement reading of the 16-bit field. *)
Lemma imm_signed_range (w : Z) : - 0x8000 <= imm_signed w < 0x8000.
Proof.
  unfold imm_signed. pose proof (imm_range w).
  destruct (imm w <? 0x8000) eqn:?; bool_facts; lia.
Qed.

Lemma imm_signed_congr (w : Z) : imm_signed w mod 0x10000 = w mod 0x10000.
Proof.
  unfold imm_signed. destruct (imm w <? 0x8000).
  - rewrite imm_mod. apply Z.mod_mod. lia.
  - replace (imm w - 0x10000) with (imm w + (-1) * 0x10000) by lia.
    rewrite Z.mod_add by lia. rewrite imm_mod. apply Z.mod_mod. lia.
Qed.

(** ** What each of the three branches returns *)

Lemma decode_op0 (w pc : Z) :
  op w = 0 -> decode_instruction w pc = decode_rtype w.
Proof. intros H. unfold decode_instruction. now rewrite H. Qed.

Lemma decode_jump (w pc : Z) :
  op w = 2 \/ op w = 3 ->
  decode_instruction w pc = decode_jtype (op w) w pc.
Proof.
  intros H. unfold decode_instruction.
  destruct H as [H | H]; now rewrite H.
Qed.

Lemma decode_other (w pc : Z) :
  op w <> 0 -> op w <> 2 -> op w <> 3 ->
  decode_instruction w pc = decode_itype (op w) w pc.
Proof.
  intros H0 H2 H3. unfold decode_instruction.
  apply Z.eqb_neq in H0, H2, H3. now rewrite H0, H2, H3.
Qed.

Lemma decode_rtype_category (w : Z) : In (type (decode_rtype w)) categories.
Proof. unfold decode_rtype. split_ifs; cbn; tauto. Qed.

Lemma decode_jtype_category (o w pc : Z) :
  In (type (decode_jtype o w pc)) categories.
Proof. unfold decode_jtype. split_ifs; cbn; tauto. Qed.

Lemma decode_itype_category (o w pc : Z) :
  In (type (decode_itype o w pc)) categories.
Proof. unfold decode_itype. split_ifs; cbn; tauto. Qed.

Lemma decode_category (w pc : Z) :
  In (type (decode_instruction w pc)) categories.
Proof.
  unfold decode_instruction. split_ifs.
  - apply decode_rtype_category.
  - apply decode_jtype_category.
  - apply decode_itype_category.
Qed.

(** ** Totality and the fallback to [unknown] *)

Lemma decode_rtype_unmatched (w : Z) :
  ~ In (funct w) known_funct ->
  decode_rtype w
  = mkDecodedInstr "unknown"
      [VStr "SPECIAL"; VInt (funct w); VInt (rs w); VInt (rt w); VInt (rd w);
       VInt (shamt w)].
Proof.
  intros H. unfold known_funct in H. in_list.
  unfold decode_rtype. split_ifs; bool_facts; try reflexivity; lia.
Qed.

Lemma decode_rtype_matched (w : Z) :
  type (decode_rtype w) = "unknown" -> ~ In (funct w) known_funct.
Proof.
  unfold decode_rtype, known_funct.
  split_ifs; cbn [type]; intros Hu; try discriminate Hu;
    bool_facts; cbn [In]; lia.
Qed.

Lemma decode_itype_unmatched (w pc : Z) :
  ~ In (op w) known_op ->
  decode_itype (op w) w pc
  = mkDecodedInstr "unknown"
      [VStr "OP"; VInt (op w); VInt (rs w); VInt (rt w); VInt (imm_signed w)].
Proof.
  intros H. unfold known_op in H. in_list.
  unfold decode_itype, imm_signed.
  split_ifs; bool_facts; try reflexivity; lia.
Qed.

Lemma decode_itype_matched (w pc : Z) :
  op w <> 2 -> op w <> 3 ->
  type (decode_itype (op w) w pc) = "unknown" -> ~ In (op w) known_op.
Proof.
  intros H2 H3. unfold decode_itype, known_op.
  split_ifs; cbn [type]; intros Hu; try discriminate Hu;
    bool_facts; cbn [In]; lia.
Qed.

(** C1.  [decode_instruction] is a total function: every word (every integer,
    so every 32-bit value) and every address have exactly one decoded
    instruction, whose category is one of the twenty of the table.  A
    register-form word whose [funct] matches no known value, and a word whose
    primary opcode matches no known value, return the [unknown] category
    with the raw fields as an ordinary value; and [unknown] is returned for
    no other input. *)
Theorem decode_instruction_total (w pc : Z) :
  (exists! d, decode_instruction w pc = d)
  /\ In (type (decode_instruction w pc)) categories
  /\ (op w = 0 -> ~ In (funct w) known_funct ->
      decode_instruction w pc
      = mkDecodedInstr "unknown"
          [VStr "SPECIAL"; VInt (funct w); VInt (rs w); VInt (rt w);
           VInt (rd w); VInt (shamt w)])
  /\ (op w <> 0 -> ~ In (op w) known_op ->
      decode_instruction w pc
      = mkDecodedInstr "unknown"
          [VStr "OP"; VInt (op w); VInt (rs w); VInt (rt w);
           VInt (imm_signed w)])
  /\ (type (decode_instruction w pc) = "unknown" ->
      (op w = 0 /\ ~ In (funct w) known_funct)
      \/ (op w <> 0 /\ ~ In (op w) known_op)).
Proof.
  split; [| split; [| split; [| split]]].
  - exists (decode_instruction w pc). split; [reflexivity | now intros d <-].
  - apply decode_category.
  - intros H0 Hf. rewrite decode_op0 by exact H0.
    now apply decode_rtype_unmatched.
  - intros H0 Hk. rewrite decode_other.
    + now apply decode_itype_unmatched.
    + exact H0.
    + intros E. apply Hk. rewrite E. cbn. tauto.
    + intros E. apply Hk. rewrite E. cbn. tauto.
  - destruct (Z.eq_dec (op w) 0) as [H0 | H0].
    + rewrite decode_op0 by exact H0. intros Hu. left.
      split; [exact H0 | now apply decode_rtype_matched].
    + destruct (Z.eq_dec (op w) 2) as [H2 | H2];
        [| destruct (Z.eq_dec (op w) 3) as [H3 | H3]].
      * rewrite decode_jump by now left.
        unfold decode_jtype. split_ifs; discriminate.
      * rewrite decode_jump by now right.
        unfold decode_jtype. split_ifs; discriminate.
      * rewrite decode_other by assumption. intros Hu. right.
        split; [exact H0 | now apply (decode_itype_matched w pc)].
Qed.

(** A reserved primary opcode (0x3F) and a reserved [funct] (0x3F), decoded
    as [unknown] values. *)
Lemma decode_instruction_total_witness :
  decode_instruction 0xFC000000 0
  = mkDecodedInstr "unknown" [VStr "OP"; VInt 0x3F; VInt 0; VInt 0; VInt 0]
  /\ decode_instruction 0x0000003F 0
     = mkDecodedInstr "unknown"
         [VStr "SPECIAL"; VInt 0x3F; VInt 0; VInt 0; VInt 0; VInt 0].
Proof.
  split.
  - apply (proj1 (proj2 (proj2 (proj2 (decode_instruction_total 0xFC000000 0))))).
    + vm_compute. discriminate.
    + vm_compute. intuition discriminate.
  - apply (proj1 (proj2 (proj2 (decode_instruction_total 0x0000003F 0)))).
    + reflexivity.
    + vm_compute. intuition discriminate.
Defined.

(** ** Jump targets *)

(** C2.  For a word whose primary opcode is J (0x02) or JAL (0x03), at any
    address [pc], the decoder returns a jump whose target address is
    [((pc + 4) & 0xF0000000) | (t << 2)], [t] being the 26-bit target field,
    and whose link flag is set exactly when the opcode is JAL. *)
Theorem jump_target_segment_relative (w pc : Z) :
  In (op w) jump_ops ->
  decode_instruction w pc
  = mkDecodedInstr "jump"
      [VInt (Z.lor (Z.land (pc + 4) 0xF0000000) (Z.shiftl (target w) 2));
       VBool (op w =? 0x03)]
  /\ target_addr (decode_instruction w pc)
     = Some (Z.lor (Z.land (pc + 4) 0xF0000000) (Z.shiftl (target w) 2))
  /\ (link_flag (decode_instruction w pc) = Some true <-> op w = 0x03)
  /\ (link_flag (decode_instruction w pc) = Some false <-> op w = 0x02).
Proof.
  intros H. unfold jump_ops in H. in_list.
  - rewrite decode_jump by (left; congruence).
    unfold decode_jtype. rewrite <- H. cbn.
    repeat split; intros; congruence.
  - rewrite decode_jump by (right; congruence).
    unfold decode_jtype. rewrite <- H. cbn.
    repeat split; intros; congruence.
Qed.

(** JAL with target field 0x100 at address 0x400000. *)
Lemma jump_target_segment_relative_witness :
  In (op 0x0C000100) jump_ops
  /\ decode_instruction 0x0C000100 0x400000
     = mkDecodedInstr "jump" [VInt 0x400; VBool true].
Proof.
  assert (H : In (op 0x0C000100) jump_ops) by (vm_compute; tauto).
  split; [exact H |].
  exact (proj1 (jump_target_segment_relative 0x0C000100 0x400000 H)).
Defined.

(** C3, as stated, fails: the J word with target field 0x10 decoded at
    [pc = 0x0FFFFFFC] has target 0x10000040, not 0x00000040.  The segment
    comes from [pc + 4 = 0x10000000], whose top nibble is 1. *)
Lemma jump_at_0FFFFFFC_is_not_0x40 :
  op 0x08000010 = 0x02
  /\ target 0x08000010 = 0x10
  /\ target_addr (decode_instruction 0x08000010 0x0FFFFFFC) = Some 0x10000040
  /\ target_addr (decode_instruction 0x08000010 0x0FFFFFFC) <> Some 0x40.
Proof. repeat split. vm_compute. discriminate. Qed.

(** C3, amended.  Decoding a jump-type word whose 26-bit target field
    equals 0x10 at [pc = 0x0FFFFFFC] yields a jump whose target address is
    0x10000040: the segment is that of the next instruction, 0x10000000. *)
Theorem jump_at_0FFFFFFC_segment (w : Z) :
  In (op w) jump_ops ->
  target w = 0x10 ->
  type (decode_instruction w 0x0FFFFFFC) = "jump"
  /\ target_addr (decode_instruction w 0x0FFFFFFC) = Some 0x10000040.
Proof.
  intros Hop Ht. unfold jump_ops in Hop. in_list.
  - rewrite decode_jump by (left; congruence).
    unfold decode_jtype. rewrite Ht, <- Hop. split; reflexivity.
  - rewrite decode_jump by (right; congruence).
    unfold decode_jtype. rewrite Ht, <- Hop. split; reflexivity.
Qed.

Lemma jump_at_0FFFFFFC_segment_witness :
  type (decode_instruction 0x0C000010 0x0FFFFFFC) = "jump"
  /\ target_addr (decode_instruction 0x0C000010 0x0FFFFFFC) = Some 0x10000040.
Proof.
  apply (jump_at_0FFFFFFC_segment 0x0C000010).
  - vm_compute. tauto.
  - reflexivity.
Defined.

(** ** Branch targets *)

Lemma decode_branch (w pc : Z) :
  In (op w) branch_ops ->
  exists m r2,
    decode_instruction w pc
    = mkDecodedInstr "branch"
        [VStr m; VInt (rs w); r2; VInt (pc + 4 + Z.shiftl (imm_signed w) 2)]
    /\ (r2 = VInt (rt w) \/ r2 = VNone).
Proof.
  intros H. unfold branch_ops in H. in_list;
    (rewrite decode_other by lia);
    unfold decode_itype; rewrite <- H; cbn [Z.eqb Pos.eqb];
    fold (imm_signed w);
    do 2 eexists; (split; [reflexivity | tauto]).
Qed.

(** C4.  For a word whose primary opcode is BEQ, BNE, BLEZ or BGTZ, at any
    address [pc], the decoded branch's target address is
    [pc + 4 + (sign_extend_16(immediate) << 2)], the immediate being bits
    15-0 of the word; and the BEQ word with rs = 1, rt = 2, imm = 4 decoded
    at [pc = 0x1000] has target 0x1014. *)
Theorem branch_target_pc_relative :
  (forall w pc : Z,
      In (op w) branch_ops ->
      type (decode_instruction w pc) = "branch"
      /\ target_addr (decode_instruction w pc)
         = Some (pc + 4 + Z.shiftl (imm_signed w) 2)
      /\ imm_signed w
         = (if imm w <? 0x8000 then imm w else imm w - 0x10000)
      /\ imm w = Z.land w 0xFFFF)
  /\ op 0x10220004 = 0x04
  /\ rs 0x10220004 = 1 /\ rt 0x10220004 = 2 /\ imm 0x10220004 = 4
  /\ decode_instruction 0x10220004 0x1000
     = mkDecodedInstr "branch" [VStr "BEQ"; VInt 1; VInt 2; VInt 0x1014].
Proof.
  split; [| repeat split].
  intros w pc H.
  destruct (decode_branch w pc H) as (m & r2 & -> & _).
  repeat split.
Qed.

(** BNE with immediate 0xFFFF (that is, -1) at 0x1000 branches to itself. *)
Lemma branch_target_pc_relative_witness :
  target_addr (decode_instruction 0x1422FFFF 0x1000) = Some 0x1000.
Proof.
  assert (H : In (op 0x1422FFFF) branch_ops) by (vm_compute; tauto).
  exact (proj1 (proj2 (proj1 branch_target_pc_relative 0x1422FFFF 0x1000 H))).
Defined.

(** ** The NOP special case *)

(** C5.  The all-zero word decodes to [nop] with an empty payload at every
    address, not to a shift.  A register-form word with [funct = 0] decodes
    to [nop] exactly when [rs], [rt], [rd] and [shamt] are all zero, and to
    the shift SLL otherwise. *)
Theorem nop_special_case :
  (forall pc : Z,
      decode_instruction 0x00000000 pc = mkDecodedInstr "nop" []
      /\ type (decode_instruction 0x00000000 pc) <> "shift")
  /\ (forall w pc : Z,
         op w = 0 -> funct w = 0 ->
         (decode_instruction w pc = mkDecodedInstr "nop" []
          <-> rs w = 0 /\ rt w = 0 /\ rd w = 0 /\ shamt w = 0)
         /\ (decode_instruction w pc
             = mkDecodedInstr "shift"
                 [VStr "SLL"; VInt (rd w); VInt (rt w); VInt (shamt w)]
             <-> ~ (rs w = 0 /\ rt w = 0 /\ rd w = 0 /\ shamt w = 0))).
Proof.
  split.
  - intros pc. split; [reflexivity | cbn; discriminate].
  - intros w pc Hop Hf. rewrite decode_op0 by exact Hop.
    unfold decode_rtype. rewrite Hf. cbn [Z.eqb orb].
    destruct ((rs w =? 0) && (rt w =? 0) && (rd w =? 0) && (shamt w =? 0))%bool
      eqn:Hz; bool_facts.
    + split; split; try discriminate; intros; try tauto; try reflexivity.
    + split; split; try discriminate; intros; try reflexivity.
      * lia.
      * lia.
Qed.

(** [sll $1, $2, 3] is a shift; the all-zero word is the NOP. *)
Lemma nop_special_case_witness :
  decode_instruction 0x000208C0 0
  = mkDecodedInstr "shift" [VStr "SLL"; VInt 1; VInt 2; VInt 3].
Proof.
  apply (proj2 nop_special_case 0x000208C0 0); try reflexivity.
  vm_compute. intuition discriminate.
Defined.

(** ** Immediates *)

(** C6.  For a word whose primary opcode is SLTIU (0x0B), at any address,
    the constant of the immediate-arithmetic payload is the sign-extended
    immediate: [imm - 0x10000] when bit 15 is set (so never the
    zero-extended value then), and [imm] when it is clear. *)
Theorem sltiu_constant_sign_extended (w pc : Z) :
  op w = 0x0B ->
  decode_instruction w pc
  = mkDecodedInstr "imm"
      [VStr "SLTU"; VInt (rt w); VInt (rs w); VInt (imm_signed w)]
  /\ imm_constant (decode_instruction w pc) = Some (imm_signed w)
  /\ (Z.testbit w 15 = true ->
      imm_constant (decode_instruction w pc) = Some (imm w - 0x10000)
      /\ imm_constant (decode_instruction w pc) <> Some (imm w))
  /\ (Z.testbit w 15 = false ->
      imm_constant (decode_instruction w pc) = Some (imm w)).
Proof.
  intros Hop.
  assert (E : decode_instruction w pc
              = mkDecodedInstr "imm"
                  [VStr "SLTU"; VInt (rt w); VInt (rs w); VInt (imm_signed w)]).
  { rewrite decode_other by lia. unfold decode_itype. rewrite Hop.
    reflexivity. }
  rewrite E. cbn [imm_constant type args String.eqb Ascii.eqb Bool.eqb].
  split; [reflexivity | split; [reflexivity |]].
  unfold imm_signed. rewrite imm_sign_bit.
  destruct (imm w <? 0x8000); cbn [negb]; split; intros Hb;
    try discriminate Hb; try reflexivity.
  split; [reflexivity |]. intros Heq. injection Heq. lia.
Qed.

(** [sltiu $2, $1, 0xFFFF] carries the constant -1, not 65535. *)
Lemma sltiu_constant_sign_extended_witness :
  op 0x2C22FFFF = 0x0B
  /\ imm_constant (decode_instruction 0x2C22FFFF 0) = Some (-1).
Proof.
  split; [reflexivity |].
  exact (proj1 (proj2 (sltiu_constant_sign_extended 0x2C22FFFF 0 eq_refl))).
Defined.

(** ** The ADD collapse *)

(** C7.  At any address, a register-form word with [funct = 0x20] (ADD) and
    one with [funct = 0x21] (ADDU) whose [rd], [rs] and [rt] fields agree
    decode to equal instructions, the arithmetic ADD of those registers. *)
Theorem add_addu_collapse (w1 w2 pc : Z) :
  op w1 = 0 -> op w2 = 0 ->
  funct w1 = 0x20 -> funct w2 = 0x21 ->
  rd w1 = rd w2 -> rs w1 = rs w2 -> rt w1 = rt w2 ->
  decode_instruction w1 pc = decode_instruction w2 pc
  /\ decode_instruction w1 pc
     = mkDecodedInstr "arith"
         [VStr "ADD"; VInt (rd w1); VInt (rs w1); VInt (rt w1)].
Proof.
  intros Ho1 Ho2 Hf1 Hf2 Hd Hs Ht.
  rewrite !decode_op0 by assumption.
  unfold decode_rtype. rewrite Hf1, Hf2, Hd, Hs, Ht. split; reflexivity.
Qed.

(** [add $3, $1, $2] and [addu $3, $1, $2]. *)
Lemma add_addu_collapse_witness :
  decode_instruction 0x00221820 0 = decode_instruction 0x00221821 0
  /\ decode_instruction 0x00221820 0
     = mkDecodedInstr "arith" [VStr "ADD"; VInt 3; VInt 1; VInt 2].
Proof.
  apply (add_addu_collapse 0x00221820 0x00221821 0); reflexivity.
Defined.

(** ** Load and store tags *)

Lemma decode_load_store (w pc : Z) :
  In (op w) load_store_ops ->
  exists c t,
    In (op w, (c, t)) load_store_table
    /\ decode_instruction w pc
       = mkDecodedInstr c
           [VStr t; VInt (rt w); VInt (rs w); VInt (imm_signed w)].
Proof.
  intros H. unfold load_store_ops in H. in_list;
    (rewrite decode_other by lia);
    unfold decode_itype; rewrite <- H; cbn [Z.eqb Pos.eqb orb];
    fold (imm_signed w);
    do 2 eexists; (split; [| reflexivity]); cbn; tauto.
Qed.

Lemma load_store_table_distinct (o1 o2 : Z) (c1 t1 c2 t2 : string) :
  In (o1, (c1, t1)) load_store_table ->
  In (o2, (c2, t2)) load_store_table ->
  o1 <> o2 -> (c1, t1) <> (c2, t2).
Proof.
  intros H1 H2 Hne. unfold load_store_table in H1, H2.
  in_list; injection H1 as <- <- <-; injection H2 as <- <- <-;
    first [ discriminate | exfalso; apply Hne; reflexivity ].
Qed.

(** C8, as stated, fails: the tag alone does not tell the eight opcodes
    apart.  LW (0x23) and SW (0x2B) are different opcodes and both carry the
    tag [WORD]. *)
Lemma lw_sw_share_width_tag :
  op 0x8C000000 = 0x23
  /\ op 0xAC000000 = 0x2B
  /\ width_tag (decode_instruction 0x8C000000 0) = Some "WORD"
  /\ width_tag (decode_instruction 0xAC000000 0) = Some "WORD".
Proof. repeat split. Qed.

(** C8, amended.  Each of the eight load/store opcodes decodes to a load
    (LB, LH, LW, LBU, LHU) or a store (SB, SH, SW) whose category together
    with its width tag is distinct from that of the other seven; the tags
    are those of [load_store_table], byte and halfword loads carrying a
    signedness suffix, and no store tag carries one. *)
Theorem load_store_tags :
  (forall w pc : Z,
      In (op w) load_store_ops ->
      exists c t,
        In (op w, (c, t)) load_store_table
        /\ (c = "load" \/ c = "store")
        /\ type (decode_instruction w pc) = c
        /\ width_tag (decode_instruction w pc) = Some t
        /\ (c = "store" -> has_signedness t = false)
        /\ (c = "load" -> t <> "WORD" -> has_signedness t = true))
  /\ (forall w1 w2 pc1 pc2 : Z,
         In (op w1) load_store_ops -> In (op w2) load_store_ops ->
         op w1 <> op w2 ->
         (type (decode_instruction w1 pc1),
          width_tag (decode_instruction w1 pc1))
         <> (type (decode_instruction w2 pc2),
             width_tag (decode_instruction w2 pc2)))
  /\ (forall w pc : Z,
         type (decode_instruction w pc) = "store" ->
         exists t,
           width_tag (decode_instruction w pc) = Some t
           /\ In t ["BYTE"; "HALF"; "WORD"]
           /\ has_signedness t = false).
Proof.
  split; [| split].
  - intros w pc H.
    destruct (decode_load_store w pc H) as (c & t & Hin & ->).
    exists c, t. split; [exact Hin |].
    unfold load_store_table in Hin.
    in_list; injection Hin as _ <- <-; cbn;
      repeat split; try tauto; intros; try reflexivity; try discriminate;
      congruence.
  - intros w1 w2 pc1 pc2 H1 H2 Hne.
    destruct (decode_load_store w1 pc1 H1) as (c1 & t1 & Hin1 & ->).
    destruct (decode_load_store w2 pc2 H2) as (c2 & t2 & Hin2 & ->).
    pose proof (load_store_table_distinct _ _ _ _ _ _ Hin1 Hin2 Hne) as Hd.
    cbn [type]. intros E. injection E as Ec Et.
    apply Hd. f_equal; [exact Ec |].
    unfold load_store_table in Hin1, Hin2.
    in_list; injection Hin1 as _ <- <-; injection Hin2 as _ <- <-;
      cbn in Et; congruence.
  - intros w pc.
    destruct (Z.eq_dec (op w) 0) as [H0 | H0].
    { rewrite decode_op0 by exact H0. unfold decode_rtype.
      split_ifs; cbn [type]; discriminate. }
    destruct (Z.eq_dec (op w) 2) as [H2 | H2].
    { rewrite decode_jump by now left. unfold decode_jtype.
      split_ifs; cbn [type]; discriminate. }
    destruct (Z.eq_dec (op w) 3) as [H3 | H3].
    { rewrite decode_jump by now right. unfold decode_jtype.
      split_ifs; cbn [type]; discriminate. }
    rewrite decode_other by assumption. unfold decode_itype.
    split_ifs; cbn [type]; intros Hs; try discriminate Hs;
      eexists; (split; [reflexivity |]); cbn; tauto.
Qed.

(** LB at address 0: a load tagged [BYTE_S]. *)
Lemma load_store_tags_witness :
  exists c t,
    In (op 0x80000000, (c, t)) load_store_table
    /\ type (decode_instruction 0x80000000 0) = c
    /\ width_tag (decode_instruction 0x80000000 0) = Some t.
Proof.
  assert (H : In (op 0x80000000) load_store_ops) by (vm_compute; tauto).
  destruct (proj1 load_store_tags 0x80000000 0 H)
    as (c & t & Hin & _ & Hc & Ht & _).
  exists c, t. auto.
Defined.

(** ** The role of the program counter *)

(** C9.  For a word whose primary opcode is neither a jump code (0x02,
    0x03) nor a branch code (0x04 to 0x07), the decoded instruction is the
    same at any two addresses: [pc] enters only the targets of jumps and
    branches. *)
Theorem decode_pc_independent (w pc1 pc2 : Z) :
  ~ In (op w) jump_ops ->
  ~ In (op w) branch_ops ->
  decode_instruction w pc1 = decode_instruction w pc2.
Proof.
  intros Hj Hb. unfold jump_ops in Hj. unfold branch_ops in Hb. in_list.
  destruct (Z.eq_dec (op w) 0) as [Hz | Hz].
  - now rewrite !decode_op0 by exact Hz.
  - rewrite !decode_other by congruence.
    unfold decode_itype.
    split_ifs; bool_facts; try reflexivity; congruence.
Qed.

(** [addiu $2, $1, 5] decodes alike at addresses 0 and 0x1000. *)
Lemma decode_pc_independent_witness :
  decode_instruction 0x24220005 0 = decode_instruction 0x24220005 0x1000.
Proof.
  apply decode_pc_independent; vm_compute; intuition discriminate.
Defined.

(** ** Targets are unbounded integers *)

(** The jump target is confined to 32 bits by its mask and field width,
    whatever [pc] is. *)
Lemma jump_target_word32 (w pc : Z) :
  word32 (Z.lor (Z.land (pc + 4) 0xF0000000) (Z.shiftl (target w) 2)).
Proof.
  set (x := Z.lor _ _).
  assert (E : Z.land x (Z.ones 32) = x).
  { apply Z.bits_inj'. intros n Hn. rewrite Z.land_spec.
    destruct (Z.lt_ge_cases n 32) as [Hlt | Hge].
    - rewrite Z.ones_spec_low by lia. apply andb_true_r.
    - rewrite Z.ones_spec_high by lia. rewrite andb_false_r.
      subst x. rewrite Z.lor_spec, Z.land_spec, Z.shiftl_spec by lia.
      unfold target. change 0x03FFFFFF with (Z.ones 26).
      rewrite Z.land_spec, (Z.ones_spec_high 26) by lia.
      rewrite (Z.bits_above_log2 0xF0000000 n) by (cbn; lia).
      now rewrite !andb_false_r. }
  unfold word32. rewrite <- E. apply land_ones_range. lia.
Qed.

(** A jump's target address, read back from the decoded instruction. *)
Lemma jump_target_addr (w pc : Z) :
  In (op w) jump_ops ->
  target_addr (decode_instruction w pc)
  = Some (Z.lor (Z.land (pc + 4) 0xF0000000) (Z.shiftl (target w) 2)).
Proof.
  intros H. unfold jump_ops in H. in_list.
  - rewrite decode_jump by (left; congruence).
    unfold decode_jtype. rewrite <- H. reflexivity.
  - rewrite decode_jump by (right; congruence).
    unfold decode_jtype. rewrite <- H. reflexivity.
Qed.

(** The segment mask sees only bits 28..31 of [pc + 4], so adding 2^32 to
    [pc] leaves the masked value unchanged. *)
Lemma segment_mask_period (pc : Z) :
  Z.land (pc + 2 ^ 32 + 4) 0xF0000000 = Z.land (pc + 4) 0xF0000000.
Proof.
  apply Z.bits_inj'. intros n Hn. rewrite !Z.land_spec.
  destruct (Z.lt_ge_cases n 32) as [Hlt | Hge].
  - f_equal.
    rewrite <- (Z.mod_pow2_bits_low (pc + 2 ^ 32 + 4) 32 n) by lia.
    rewrite <- (Z.mod_pow2_bits_low (pc + 4) 32 n) by lia.
    f_equal. replace (pc + 2 ^ 32 + 4) with (pc + 4 + 1 * 2 ^ 32) by ring.
    apply Z.mod_add. lia.
  - rewrite (Z.bits_above_log2 0xF0000000 n) by (cbn; lia).
    now rewrite !andb_false_r.
Qed.

(** C10, as stated, fails for jumps: no input gives a jump target outside
    the 32-bit range, and reducing [pc + 4] modulo 2^32 first would change no
    jump target.  The J word with target field 0x3FFFFFF decoded at
    [pc = 0xFFFFFFFC], where [pc + 4 = 2^32], has target 0x0FFFFFFC, the
    same as at [pc = -4], where [pc + 4 = 0]. *)
Lemma jump_target_within_32_bits :
  op 0x0BFFFFFF = 0x02 /\ target 0x0BFFFFFF = 0x3FFFFFF
  /\ 0xFFFFFFFC + 4 = 2 ^ 32
  /\ target_addr (decode_instruction 0x0BFFFFFF 0xFFFFFFFC) = Some 0x0FFFFFFC
  /\ target_addr (decode_instruction 0x0BFFFFFF (-4)) = Some 0x0FFFFFFC
  /\ word32 0x0FFFFFFC
  /\ ~ (exists w pc t,
           In (op w) jump_ops
           /\ target_addr (decode_instruction w pc) = Some t
           /\ ~ word32 t).
Proof.
  split; [reflexivity |].
  split; [reflexivity |].
  split; [reflexivity |].
  split; [reflexivity |].
  split; [reflexivity |].
  split; [unfold word32; lia |].
  intros (w & pc & t & Hop & Ht & Hout).
  rewrite jump_target_addr in Ht by exact Hop.
  injection Ht as <-. apply Hout, jump_target_word32.
Qed.

(** C10, amended.  Branch targets are computed on unbounded integers with
    no reduction modulo 2^32, so a decoded branch target can lie outside the
    32-bit range: the BEQ word with immediate 0x8000 decoded at [pc = 0] has
    the negative target [0 + 4 + ((-0x8000) << 2) = -131068], and the BEQ
    word with immediate 0 decoded at [pc = 0xFFFFFFFC] has target 2^32.
    Jump targets, on the contrary, always lie in [0, 2^32) and are the same
    at [pc] and at [pc + 2^32]. *)
Theorem branch_target_not_reduced :
  word32 0x10008000 /\ op 0x10008000 = 0x04 /\ imm 0x10008000 = 0x8000
  /\ target_addr (decode_instruction 0x10008000 0)
     = Some (0 + 4 + Z.shiftl (- 0x8000) 2)
  /\ 0 + 4 + Z.shiftl (- 0x8000) 2 = -131068
  /\ -131068 < 0
  /\ target_addr (decode_instruction 0x10000000 0xFFFFFFFC) = Some (2 ^ 32)
  /\ (exists w pc t,
         word32 w /\ word32 pc /\ In (op w) branch_ops
         /\ target_addr (decode_instruction w pc) = Some t
         /\ ~ word32 t)
  /\ (forall w pc,
         In (op w) jump_ops ->
         exists t,
           target_addr (decode_instruction w pc) = Some t
           /\ word32 t
           /\ target_addr (decode_instruction w (pc + 2 ^ 32)) = Some t).
Proof.
  assert (Hw : word32 0x10008000) by (unfold word32; lia).
  assert (Ht : target_addr (decode_instruction 0x10008000 0)
               = Some (-131068)) by reflexivity.
  split; [exact Hw |].
  split; [reflexivity |].
  split; [reflexivity |].
  split; [exact Ht |].
  split; [reflexivity |].
  split; [lia |].
  split; [reflexivity |].
  split.
  - exists 0x10008000, 0, (-131068).
    split; [exact Hw |].
    split; [unfold word32; lia |].
    split; [change (op 0x10008000) with 0x04; unfold branch_ops; cbn; tauto |].
    split; [exact Ht |].
    unfold word32. lia.
  - intros w pc Hop.
    exists (Z.lor (Z.land (pc + 4) 0xF0000000) (Z.shiftl (target w) 2)).
    split; [apply jump_target_addr, Hop |].
    split; [apply jump_target_word32 |].
    rewrite jump_target_addr by exact Hop.
    now rewrite segment_mask_period.
Qed.

(** JAL with target field 0x3FFFFFF at [pc = 0xFFFFFFFC]: the target stays
    within 32 bits and is unchanged 2^32 bytes further. *)
Lemma branch_target_not_reduced_witness :
  exists t,
    target_addr (decode_instruction 0x0FFFFFFF 0xFFFFFFFC) = Some t
    /\ word32 t
    /\ target_addr (decode_instruction 0x0FFFFFFF (0xFFFFFFFC + 2 ^ 32))
       = Some t.
Proof.
  apply (proj2 (proj2 (proj2 (proj2 (proj2 (proj2 (proj2 (proj2
           branch_target_not_reduced)))))))).
  vm_compute. tauto.
Defined.

(** ** Bit fields as quotients and remainders *)

Lemma field_div_mod (w s k : Z) :
  0 <= s -> 0 <= k ->
  Z.land (Z.shiftr w s) (Z.ones k) = (w / 2 ^ s) mod 2 ^ k.
Proof.
  intros Hs Hk. rewrite Z.land_ones by exact Hk.
  now rewrite Z.shiftr_div_pow2 by exact Hs.
Qed.

Lemma field_low32 (w s k : Z) :
  0 <= s -> 0 <= k -> s + k <= 32 ->
  Z.land (Z.shiftr (w mod 2 ^ 32) s) (Z.ones k)
  = Z.land (Z.shiftr w s) (Z.ones k).
Proof.
  intros Hs Hk Hsk. rewrite <- (Z.land_ones w 32) by lia.
  apply Z.bits_inj'. intros n Hn.
  rewrite !Z.land_spec, !Z.shiftr_spec, Z.land_spec by exact Hn.
  destruct (Z.lt_ge_cases n k) as [Hlt | Hge].
  - rewrite (Z.ones_spec_low 32) by lia. now rewrite andb_true_r.
  - rewrite (Z.ones_spec_high k) by lia. now rewrite !andb_false_r.
Qed.

Lemma op_low32 (w : Z) : op (w mod 2 ^ 32) = op w.
Proof. exact (field_low32 w 26 6 ltac:(lia) ltac:(lia) ltac:(lia)). Qed.

Lemma rs_low32 (w : Z) : rs (w mod 2 ^ 32) = rs w.
Proof. exact (field_low32 w 21 5 ltac:(lia) ltac:(lia) ltac:(lia)). Qed.

Lemma rt_low32 (w : Z) : rt (w mod 2 ^ 32) = rt w.
Proof. exact (field_low32 w 16 5 ltac:(lia) ltac:(lia) ltac:(lia)). Qed.

Lemma rd_low32 (w : Z) : rd (w mod 2 ^ 32) = rd w.
Proof. exact (field_low32 w 11 5 ltac:(lia) ltac:(lia) ltac:(lia)). Qed.

Lemma shamt_low32 (w : Z) : shamt (w mod 2 ^ 32) = shamt w.
Proof. exact (field_low32 w 6 5 ltac:(lia) ltac:(lia) ltac:(lia)). Qed.

Lemma low_field_low32 (w k : Z) :
  0 <= k <= 32 -> Z.land (w mod 2 ^ 32) (Z.ones k) = Z.land w (Z.ones k).
Proof.
  intros Hk.
  pose proof (field_low32 w 0 k ltac:(lia) ltac:(lia) ltac:(lia)) as H.
  now rewrite !Z.shiftr_0_r in H.
Qed.

Lemma funct_low32 (w : Z) : funct (w mod 2 ^ 32) = funct w.
Proof. exact (low_field_low32 w 6 ltac:(lia)). Qed.

Lemma imm_low32 (w : Z) : imm (w mod 2 ^ 32) = imm w.
Proof. exact (low_field_low32 w 16 ltac:(lia)). Qed.

Lemma target_low32 (w : Z) : target (w mod 2 ^ 32) = target w.
Proof. exact (low_field_low32 w 26 ltac:(lia)). Qed.

(** The fields as quotients and remainders of the word. *)
Lemma fields_div_mod (w : Z) :
  op w = (w / 2 ^ 26) mod 2 ^ 6
  /\ rs w = (w / 2 ^ 21) mod 2 ^ 5
  /\ rt w = (w / 2 ^ 16) mod 2 ^ 5
  /\ rd w = (w / 2 ^ 11) mod 2 ^ 5
  /\ shamt w = (w / 2 ^ 6) mod 2 ^ 5
  /\ funct w = w mod 2 ^ 6
  /\ imm w = w mod 2 ^ 16
  /\ target w = w mod 2 ^ 26.
Proof.
  repeat split.
  - exact (field_div_mod w 26 6 ltac:(lia) ltac:(lia)).
  - exact (field_div_mod w 21 5 ltac:(lia) ltac:(lia)).
  - exact (field_div_mod w 16 5 ltac:(lia) ltac:(lia)).
  - exact (field_div_mod w 11 5 ltac:(lia) ltac:(lia)).
  - exact (field_div_mod w 6 5 ltac:(lia) ltac:(lia)).
  - exact (Z.land_ones w 6 ltac:(lia)).
  - exact (Z.land_ones w 16 ltac:(lia)).
  - exact (Z.land_ones w 26 ltac:(lia)).
Qed.

Lemma rtype_fields_sum (w : Z) :
  word32 w ->
  w = op w * 2 ^ 26 + rs w * 2 ^ 21 + rt w * 2 ^ 16 + rd w * 2 ^ 11
      + shamt w * 2 ^ 6 + funct w.
Proof.
  unfold word32. intros Hw.
  destruct (fields_div_mod w) as (-> & -> & -> & -> & -> & -> & _).
  change (2 ^ 32) with 4294967296 in Hw.
  change (2 ^ 26) with 67108864. change (2 ^ 21) with 2097152.
  change (2 ^ 16) with 65536. change (2 ^ 11) with 2048.
  change (2 ^ 6) with 64. change (2 ^ 5) with 32.
  Z.div_mod_to_equations. lia.
Qed.

Lemma itype_fields_sum (w : Z) :
  word32 w ->
  w = op w * 2 ^ 26 + rs w * 2 ^ 21 + rt w * 2 ^ 16 + imm w.
Proof.
  unfold word32. intros Hw.
  destruct (fields_div_mod w) as (-> & -> & -> & _ & _ & _ & -> & _).
  change (2 ^ 32) with 4294967296 in Hw.
  change (2 ^ 26) with 67108864. change (2 ^ 21) with 2097152.
  change (2 ^ 16) with 65536.
  change (2 ^ 6) with 64. change (2 ^ 5) with 32.
  Z.div_mod_to_equations. lia.
Qed.

Lemma jtype_fields_sum (w : Z) :
  word32 w -> w = op w * 2 ^ 26 + target w.
Proof.
  unfold word32. intros Hw.
  destruct (fields_div_mod w) as (-> & _ & _ & _ & _ & _ & _ & ->).
  change (2 ^ 32) with 4294967296 in Hw.
  change (2 ^ 26) with 67108864. change (2 ^ 6) with 64.
  Z.div_mod_to_equations. lia.
Qed.

(** ** Words wider than 32 bits *)

(** X1.  Only bits 31-0 of [word] are read: any integer, negative or wider
    than 32 bits, decodes as its residue modulo 2^32 does. *)
Theorem decode_reads_low_32_bits (w pc : Z) :
  decode_instruction w pc = decode_instruction (w mod 2 ^ 32) pc.
Proof.
  unfold decode_instruction, decode_rtype, decode_jtype, decode_itype.
  now rewrite op_low32, rs_low32, rt_low32, rd_low32, shamt_low32,
    funct_low32, imm_low32, target_low32.
Qed.

(** ** The fields cover the word *)

(** X2.  The fields of each of the three encodings partition a 32-bit word:
    the word is recovered from its register-form fields, from its
    immediate-form fields and from its jump-form fields. *)
Theorem fields_reassemble (w : Z) :
  word32 w ->
  w = op w * 2 ^ 26 + rs w * 2 ^ 21 + rt w * 2 ^ 16 + rd w * 2 ^ 11
      + shamt w * 2 ^ 6 + funct w
  /\ w = op w * 2 ^ 26 + rs w * 2 ^ 21 + rt w * 2 ^ 16 + imm w
  /\ w = op w * 2 ^ 26 + target w.
Proof.
  intros Hw. split; [| split].
  - now apply rtype_fields_sum.
  - now apply itype_fields_sum.
  - now apply jtype_fields_sum.
Qed.

(** [lw $2, -4($1)], the word 0x8C22FFFC. *)
Lemma fields_reassemble_witness :
  0x8C22FFFC = 0x23 * 2 ^ 26 + 1 * 2 ^ 21 + 2 * 2 ^ 16 + 0xFFFC.
Proof.
  assert (H : word32 0x8C22FFFC) by (unfold word32; lia).
  exact (proj1 (proj2 (fields_reassemble 0x8C22FFFC H))).
Defined.

(** ** Payload shapes *)

Lemma in_range_intro (lo hi z : Z) :
  lo <= z < hi -> in_range lo hi (VInt z) = true.
Proof.
  intros H. unfold in_range. apply andb_true_iff.
  split; [apply Z.leb_le | apply Z.ltb_lt]; lia.
Qed.

Ltac ranges :=
  repeat match goal with
    | |- (_ && _)%bool = true => apply andb_true_iff; split
    | |- is_reg _ = true => apply in_range_intro
    | |- in_range _ _ _ = true => apply in_range_intro
    | |- one_of _ _ = true => reflexivity
    | |- true = true => reflexivity
    end.

Lemma decode_rtype_well_formed (w : Z) : well_formed (decode_rtype w) = true.
Proof.
  pose proof (rs_range w). pose proof (rt_range w). pose proof (rd_range w).
  pose proof (shamt_range w). pose proof (funct_range w).
  unfold decode_rtype.
  split_ifs; unfold well_formed;
    cbn [type args String.eqb Ascii.eqb Bool.eqb orb]; ranges; lia.
Qed.

Lemma decode_jtype_well_formed (o w pc : Z) :
  well_formed (decode_jtype o w pc) = true.
Proof.
  pose proof (jump_target_word32 w pc) as Hj. unfold word32 in Hj.
  unfold decode_jtype.
  split_ifs; unfold well_formed;
    cbn [type args String.eqb Ascii.eqb Bool.eqb orb]; ranges; exact Hj.
Qed.

Lemma decode_itype_well_formed (w pc : Z) :
  well_formed (decode_itype (op w) w pc) = true.
Proof.
  pose proof (rs_range w). pose proof (rt_range w). pose proof (op_range w).
  pose proof (imm_range w). pose proof (imm_signed_range w) as Hs.
  unfold decode_itype. fold (imm_signed w).
  split_ifs; unfold well_formed;
    cbn [type args String.eqb Ascii.eqb Bool.eqb orb]; ranges;
    try lia.
  all: try (apply orb_true_iff; left; ranges; lia).
  all: try (apply orb_true_iff; right; ranges; lia).
Qed.

(** X3.  Every decoded instruction has the payload shape of its category:
    the arity and the kind of each operand are fixed by the category, the
    mnemonic or tag is one of those of the category, every register operand
    is an index from 0 to 31, a shift amount is 0 to 31, a sign-extended
    constant or offset lies in [-32768, 32767], a zero-extended one in
    [0, 65535], and a jump target in [0, 2^32). *)
Theorem decode_well_formed (w pc : Z) :
  well_formed (decode_instruction w pc) = true.
Proof.
  unfold decode_instruction. split_ifs.
  - apply decode_rtype_well_formed.
  - apply decode_jtype_well_formed.
  - apply decode_itype_well_formed.
Qed.

(** ** Categories and encodings *)

Ltac by_category :=
  cbn [type In app jump_ops branch_ops load_ops store_ops signed_imm_ops
       unsigned_imm_ops register_categories];
  repeat split; intros;
  repeat match goal with
    | H : _ \/ _ |- _ => destruct H
    | H : False |- _ => destruct H
    end;
  try discriminate; try reflexivity; try lia.

(** X4.  The category tells the encoding family exactly: [jump] is returned
    for the opcodes 0x02 and 0x03 and no other, [branch] for 0x04 to 0x07,
    [load] for the five load opcodes, [store] for the three store opcodes,
    [imm] for 0x08 to 0x0E, [lui] for 0x0F, and the thirteen register-form
    categories only for opcode 0. *)
Theorem category_determines_format (w pc : Z) :
  (type (decode_instruction w pc) = "jump" <-> In (op w) jump_ops)
  /\ (type (decode_instruction w pc) = "branch" <-> In (op w) branch_ops)
  /\ (type (decode_instruction w pc) = "load" <-> In (op w) load_ops)
  /\ (type (decode_instruction w pc) = "store" <-> In (op w) store_ops)
  /\ (type (decode_instruction w pc) = "imm"
      <-> In (op w) (signed_imm_ops ++ unsigned_imm_ops))
  /\ (type (decode_instruction w pc) = "lui" <-> op w = 0x0F)
  /\ (In (type (decode_instruction w pc)) register_categories -> op w = 0).
Proof.
  destruct (Z.eq_dec (op w) 0) as [Hz | Hz].
  { rewrite decode_op0 by exact Hz. unfold decode_rtype.
    split_ifs; by_category. }
  destruct (Z.eq_dec (op w) 2) as [H2 | H2].
  { rewrite decode_jump by now left. unfold decode_jtype.
    split_ifs; by_category. }
  destruct (Z.eq_dec (op w) 3) as [H3 | H3].
  { rewrite decode_jump by now right. unfold decode_jtype.
    split_ifs; by_category. }
  rewrite decode_other by assumption. unfold decode_itype.
  split_ifs; bool_facts; by_category.
Qed.

(** ** Which words decode to [nop] and to [unknown] *)

Lemma decode_rtype_nop (w : Z) :
  type (decode_rtype w) = "nop" ->
  funct w = 0 /\ rs w = 0 /\ rt w = 0 /\ rd w = 0 /\ shamt w = 0.
Proof.
  unfold decode_rtype.
  split_ifs; cbn [type]; intros Hn; try discriminate Hn.
  bool_facts. lia.
Qed.

Lemma decode_nop_op0 (w pc : Z) :
  type (decode_instruction w pc) = "nop" -> op w = 0.
Proof.
  destruct (Z.eq_dec (op w) 0) as [Hz | Hz]; [easy |].
  destruct (Z.eq_dec (op w) 2) as [H2 | H2].
  { rewrite decode_jump by now left. unfold decode_jtype.
    split_ifs; discriminate. }
  destruct (Z.eq_dec (op w) 3) as [H3 | H3].
  { rewrite decode_jump by now right. unfold decode_jtype.
    split_ifs; discriminate. }
  rewrite decode_other by assumption. unfold decode_itype.
  split_ifs; discriminate.
Qed.

(** X5.  Among the 32-bit words, only 0x00000000 decodes to [nop]: a
    shift-left-logical with any non-zero field, [rs] included, stays a
    shift. *)
Theorem nop_only_for_zero_word (w pc : Z) :
  word32 w ->
  (type (decode_instruction w pc) = "nop" <-> w = 0).
Proof.
  intros Hw. split.
  - intros Hn. pose proof (decode_nop_op0 w pc Hn) as Hop.
    rewrite decode_op0 in Hn by exact Hop.
    destruct (decode_rtype_nop w Hn) as (Hf & Hs & Ht & Hd & Hh).
    rewrite (rtype_fields_sum w Hw), Hop, Hf, Hs, Ht, Hd, Hh. reflexivity.
  - intros ->. reflexivity.
Qed.

(** [sll $0, $0, 0] with [rs] = 1 (the word 0x00200000) is not a NOP. *)
Lemma nop_only_for_zero_word_witness :
  word32 0x00200000 /\ type (decode_instruction 0x00200000 0) <> "nop".
Proof.
  assert (Hw : word32 0x00200000) by (unfold word32; lia).
  split; [exact Hw |]. intros Hn.
  pose proof (proj1 (nop_only_for_zero_word 0x00200000 0 Hw) Hn) as E.
  discriminate E.
Defined.

Lemma decode_unknown_cases (w pc : Z) :
  type (decode_instruction w pc) = "unknown" ->
  (op w = 0
   /\ decode_instruction w pc
      = mkDecodedInstr "unknown"
          [VStr "SPECIAL"; VInt (funct w); VInt (rs w); VInt (rt w);
           VInt (rd w); VInt (shamt w)])
  \/ (op w <> 0
      /\ decode_instruction w pc
         = mkDecodedInstr "unknown"
             [VStr "OP"; VInt (op w); VInt (rs w); VInt (rt w);
              VInt (imm_signed w)]).
Proof.
  destruct (Z.eq_dec (op w) 0) as [Hz | Hz].
  { rewrite decode_op0 by exact Hz. intros Hu. left. split; [exact Hz |].
    apply decode_rtype_unmatched. now apply decode_rtype_matched. }
  destruct (Z.eq_dec (op w) 2) as [H2 | H2].
  { rewrite decode_jump by now left. unfold decode_jtype.
    split_ifs; discriminate. }
  destruct (Z.eq_dec (op w) 3) as [H3 | H3].
  { rewrite decode_jump by now right. unfold decode_jtype.
    split_ifs; discriminate. }
  rewrite decode_other by assumption. intros Hu. right.
  split; [exact Hz |].
  apply decode_itype_unmatched. now apply (decode_itype_matched w pc).
Qed.

Lemma imm_signed_inj (w1 w2 : Z) :
  imm_signed w1 = imm_signed w2 -> imm w1 = imm w2.
Proof.
  pose proof (imm_range w1). pose proof (imm_range w2).
  unfold imm_signed. split_ifs; bool_facts; lia.
Qed.

(** X6.  The payload of [unknown] loses nothing: two 32-bit words that
    decode to the same unrecognized instruction are the same word, so the
    raw word can be rebuilt from the diagnostic fields. *)
Theorem unknown_payload_lossless (w1 w2 pc1 pc2 : Z) :
  word32 w1 -> word32 w2 ->
  type (decode_instruction w1 pc1) = "unknown" ->
  decode_instruction w1 pc1 = decode_instruction w2 pc2 ->
  w1 = w2.
Proof.
  intros Hw1 Hw2 Hu1 E.
  assert (Hu2 : type (decode_instruction w2 pc2) = "unknown")
    by (now rewrite <- E).
  destruct (decode_unknown_cases w1 pc1 Hu1) as [[Ho1 E1] | [Ho1 E1]];
    destruct (decode_unknown_cases w2 pc2 Hu2) as [[Ho2 E2] | [Ho2 E2]];
    rewrite E1, E2 in E; try discriminate E.
  - injection E as Hf Hs Ht Hd Hh.
    rewrite (rtype_fields_sum w1 Hw1), (rtype_fields_sum w2 Hw2).
    now rewrite Ho1, Ho2, Hf, Hs, Ht, Hd, Hh.
  - injection E as Ho Hs Ht Hi. apply imm_signed_inj in Hi.
    rewrite (itype_fields_sum w1 Hw1), (itype_fields_sum w2 Hw2).
    now rewrite Ho, Hs, Ht, Hi.
Qed.

(** The reserved words 0xFC00FFFF and 0xFC00FFFE have different
    payloads. *)
Lemma unknown_payload_lossless_witness :
  word32 0xFC00FFFF
  /\ decode_instruction 0xFC00FFFF 0 <> decode_instruction 0xFC00FFFE 0.
Proof.
  assert (Hw1 : word32 0xFC00FFFF) by (unfold word32; lia).
  assert (Hw2 : word32 0xFC00FFFE) by (unfold word32; lia).
  split; [exact Hw1 |]. intros E.
  pose proof (unknown_payload_lossless 0xFC00FFFF 0xFC00FFFE 0 0
                Hw1 Hw2 eq_refl E) as Hw.
  discriminate Hw.
Defined.

(** ** Jump and branch targets as arithmetic *)

Lemma segment_mask_bit (n : Z) :
  0 <= n -> Z.testbit 0xF0000000 n = (28 <=? n) && (n <? 32).
Proof.
  intros Hn. change 0xF0000000 with (Z.shiftl (Z.ones 4) 28).
  rewrite Z.shiftl_spec by exact Hn.
  destruct (Z.leb_spec 28 n) as [Hge | Hlt]; cbn [andb].
  - destruct (Z.ltb_spec n 32) as [Hlt | Hge'].
    + apply Z.ones_spec_low. lia.
    + apply Z.ones_spec_high. lia.
  - apply Z.testbit_neg_r. lia.
Qed.

Lemma segment_mask_shift (x : Z) :
  Z.land x 0xF0000000 = Z.shiftl (Z.land (Z.shiftr x 28) (Z.ones 4)) 28.
Proof.
  apply Z.bits_inj'. intros n Hn.
  rewrite Z.land_spec, segment_mask_bit, Z.shiftl_spec by exact Hn.
  destruct (Z.leb_spec 28 n) as [Hge | Hlt]; cbn [andb].
  - rewrite Z.land_spec, Z.shiftr_spec by lia.
    replace (n - 28 + 28) with n by lia.
    destruct (Z.ltb_spec n 32) as [Hlt | Hge'].
    + now rewrite Z.ones_spec_low by lia.
    + now rewrite Z.ones_spec_high by lia.
  - rewrite andb_false_r. symmetry. apply Z.testbit_neg_r. lia.
Qed.

Lemma jump_target_sum (w pc : Z) :
  Z.lor (Z.land (pc + 4) 0xF0000000) (Z.shiftl (target w) 2)
  = ((pc + 4) / 2 ^ 28) mod 2 ^ 4 * 2 ^ 28 + target w * 2 ^ 2.
Proof.
  rewrite segment_mask_shift.
  rewrite <- Z.lxor_lor, <- Z.add_nocarry_lxor.
  - rewrite !Z.shiftl_mul_pow2 by lia.
    now rewrite field_div_mod by lia.
  - apply Z.bits_inj'. intros n Hn.
    rewrite Z.land_spec, !Z.shiftl_spec, Z.bits_0 by exact Hn.
    destruct (Z.lt_ge_cases n 28) as [Hlt | Hge].
    + rewrite (Z.testbit_neg_r _ (n - 28)) by lia. reflexivity.
    + unfold target. change 0x03FFFFFF with (Z.ones 26).
      rewrite (Z.land_spec w), (Z.ones_spec_high 26) by lia.
      now rewrite !andb_false_r.
  - apply Z.bits_inj'. intros n Hn.
    rewrite Z.land_spec, !Z.shiftl_spec, Z.bits_0 by exact Hn.
    destruct (Z.lt_ge_cases n 28) as [Hlt | Hge].
    + rewrite (Z.testbit_neg_r _ (n - 28)) by lia. reflexivity.
    + unfold target. change 0x03FFFFFF with (Z.ones 26).
      rewrite (Z.land_spec w), (Z.ones_spec_high 26) by lia.
      now rewrite !andb_false_r.
Qed.

(** X7.  The target of a decoded jump is a 32-bit, word-aligned address: its
    low 28 bits are four times the 26-bit target field of the word and its
    top four bits are bits 31-28 of [pc + 4], whatever integer [pc] is. *)
Theorem jump_target_layout (w pc : Z) :
  In (op w) jump_ops ->
  exists t,
    target_addr (decode_instruction w pc) = Some t
    /\ 0 <= t < 2 ^ 32
    /\ t mod 4 = 0
    /\ t mod 2 ^ 28 = 4 * (w mod 2 ^ 26)
    /\ t / 2 ^ 28 = ((pc + 4) / 2 ^ 28) mod 16.
Proof.
  intros Hop. unfold jump_ops in Hop.
  exists (Z.lor (Z.land (pc + 4) 0xF0000000) (Z.shiftl (target w) 2)).
  split.
  - in_list.
    + rewrite decode_jump by (left; congruence).
      unfold decode_jtype. now rewrite <- Hop.
    + rewrite decode_jump by (right; congruence).
      unfold decode_jtype. now rewrite <- Hop.
  - rewrite jump_target_sum.
    destruct (fields_div_mod w) as (_ & _ & _ & _ & _ & _ & _ & Ht).
    rewrite Ht.
    change (2 ^ 32) with 4294967296. change (2 ^ 28) with 268435456.
    change (2 ^ 26) with 67108864. change (2 ^ 4) with 16.
    change (2 ^ 2) with 4.
    Z.div_mod_to_equations. lia.
Qed.

(** [jal] with target field 0x3FFFFFF at [pc = 0xFFFFFFFC]: the segment
    wraps to 0. *)
Lemma jump_target_layout_witness :
  exists t,
    target_addr (decode_instruction 0x0FFFFFFF 0xFFFFFFFC) = Some t
    /\ 0 <= t < 2 ^ 32
    /\ t mod 4 = 0
    /\ t mod 2 ^ 28 = 4 * (0x0FFFFFFF mod 2 ^ 26)
    /\ t / 2 ^ 28 = ((0xFFFFFFFC + 4) / 2 ^ 28) mod 16.
Proof.
  apply (jump_target_layout 0x0FFFFFFF 0xFFFFFFFC).
  vm_compute. tauto.
Defined.

Lemma imm_signed_closed_form (w : Z) :
  imm_signed w = (w + 0x8000) mod 0x10000 - 0x8000.
Proof.
  unfold imm_signed. rewrite imm_mod.
  destruct (w mod 0x10000 <? 0x8000) eqn:Hlt; bool_facts;
    revert Hlt; Z.div_mod_to_equations; lia.
Qed.

(** X8.  The target of a decoded branch is [pc + 4 + 4 * s], [s] being the
    two's-complement value of the low 16 bits of the word: it lies within
    [pc - 131068, pc + 131072], differs from [pc] by a multiple of 4, and
    moves with [pc] (decoding the same word [d] bytes further gives a target
    [d] bytes further). *)
Theorem branch_target_window (w pc d : Z) :
  In (op w) branch_ops ->
  exists t,
    target_addr (decode_instruction w pc) = Some t
    /\ t = pc + 4 + 4 * ((w + 0x8000) mod 0x10000 - 0x8000)
    /\ pc - 131068 <= t <= pc + 131072
    /\ (t - pc) mod 4 = 0
    /\ target_addr (decode_instruction w (pc + d)) = Some (t + d).
Proof.
  intros Hop.
  destruct (decode_branch w pc Hop) as (m & r2 & E & _).
  destruct (decode_branch w (pc + d) Hop) as (m' & r2' & E' & _).
  exists (pc + 4 + Z.shiftl (imm_signed w) 2).
  rewrite E, E'. cbn [target_addr type args String.eqb Ascii.eqb Bool.eqb].
  pose proof (imm_signed_range w) as Hr.
  rewrite Z.shiftl_mul_pow2 by lia. change (2 ^ 2) with 4.
  rewrite <- imm_signed_closed_form.
  split; [reflexivity |]. split; [lia |]. split; [lia |].
  split.
  - replace (pc + 4 + imm_signed w * 4 - pc) with ((1 + imm_signed w) * 4)
      by lia.
    apply Z.mod_mul. lia.
  - f_equal. lia.
Qed.

(** [bne $1, $2, -1] at 0x1000 branches to 0x1000; at 0x1010, to 0x1010. *)
Lemma branch_target_window_witness :
  exists t,
    target_addr (decode_instruction 0x1422FFFF 0x1000) = Some t
    /\ t = 0x1000 + 4 + 4 * ((0x1422FFFF + 0x8000) mod 0x10000 - 0x8000)
    /\ 0x1000 - 131068 <= t <= 0x1000 + 131072
    /\ (t - 0x1000) mod 4 = 0
    /\ target_addr (decode_instruction 0x1422FFFF (0x1000 + 0x10))
       = Some (t + 0x10).
Proof.
  apply (branch_target_window 0x1422FFFF 0x1000 0x10).
  vm_compute. tauto.
Defined.

(** ** Immediates, offsets and collapsed encodings *)

Lemma decode_imm (w pc : Z) :
  In (op w) (signed_imm_ops ++ unsigned_imm_ops) ->
  exists m,
    In (op w, m) imm_mnemonics
    /\ decode_instruction w pc
       = mkDecodedInstr "imm"
           [VStr m; VInt (rt w); VInt (rs w);
            VInt (if existsb (Z.eqb (op w)) signed_imm_ops
                  then imm_signed w else imm w)].
Proof.
  intros H. unfold signed_imm_ops, unsigned_imm_ops in H.
  cbn [app] in H. in_list;
    (rewrite decode_other by lia);
    unfold decode_itype; rewrite <- H; cbn [Z.eqb Pos.eqb orb existsb];
    fold (imm_signed w);
    eexists; (split; [| reflexivity]); cbn; tauto.
Qed.

(** X9.  The constant of an immediate-arithmetic instruction is the
    two's-complement value of the low 16 bits for ADDI, ADDIU, SLTI and
    SLTIU, and their unsigned value for ANDI, ORI and XORI; LUI carries the
    unsigned 16 bits unshifted.  The destination is [rt], the source
    [rs]. *)
Theorem immediate_extension (w pc : Z) :
  (In (op w) signed_imm_ops ->
   exists m,
     In (op w, m) imm_mnemonics
     /\ decode_instruction w pc
        = mkDecodedInstr "imm"
            [VStr m; VInt (rt w); VInt (rs w);
             VInt ((w + 0x8000) mod 0x10000 - 0x8000)])
  /\ (In (op w) unsigned_imm_ops ->
      exists m,
        In (op w, m) imm_mnemonics
        /\ decode_instruction w pc
           = mkDecodedInstr "imm"
               [VStr m; VInt (rt w); VInt (rs w); VInt (w mod 0x10000)])
  /\ (op w = 0x0F ->
      decode_instruction w pc
      = mkDecodedInstr "lui" [VInt (rt w); VInt (w mod 0x10000)]).
Proof.
  split; [| split].
  - intros H.
    destruct (decode_imm w pc) as (m & Hm & E).
    { apply in_or_app. now left. }
    exists m. split; [exact Hm |]. rewrite E, <- imm_signed_closed_form.
    unfold signed_imm_ops in H. in_list; rewrite <- H; reflexivity.
  - intros H.
    destruct (decode_imm w pc) as (m & Hm & E).
    { apply in_or_app. now right. }
    exists m. split; [exact Hm |]. rewrite E, <- imm_mod.
    unfold unsigned_imm_ops in H. in_list; rewrite <- H; reflexivity.
  - intros H. rewrite decode_other by lia.
    unfold decode_itype. rewrite H, <- imm_mod. reflexivity.
Qed.

(** [addiu $2, $1, -1] (0x2422FFFF) and [ori $2, $1, 0xFFFF]
    (0x3422FFFF). *)
Lemma immediate_extension_witness :
  (exists m,
      In (op 0x2422FFFF, m) imm_mnemonics
      /\ decode_instruction 0x2422FFFF 0
         = mkDecodedInstr "imm"
             [VStr m; VInt (rt 0x2422FFFF); VInt (rs 0x2422FFFF);
              VInt ((0x2422FFFF + 0x8000) mod 0x10000 - 0x8000)])
  /\ (exists m,
         In (op 0x3422FFFF, m) imm_mnemonics
         /\ decode_instruction 0x3422FFFF 0
            = mkDecodedInstr "imm"
                [VStr m; VInt (rt 0x3422FFFF); VInt (rs 0x3422FFFF);
                 VInt (0x3422FFFF mod 0x10000)]).
Proof.
  split.
  - apply (proj1 (immediate_extension 0x2422FFFF 0)). vm_compute. tauto.
  - apply (proj1 (proj2 (immediate_extension 0x3422FFFF 0))).
    vm_compute. tauto.
Defined.

(** X10.  The offset of every load and store, the unsigned loads LBU and
    LHU included, is the two's-complement value of the low 16 bits; the
    data register is [rt] and the base register [rs]; the category is
    [load] exactly for the five load opcodes. *)
Theorem load_store_operands (w pc : Z) :
  In (op w) load_store_ops ->
  exists c t,
    decode_instruction w pc
    = mkDecodedInstr c
        [VStr t; VInt (rt w); VInt (rs w);
         VInt ((w + 0x8000) mod 0x10000 - 0x8000)]
    /\ (c = "load" <-> In (op w) load_ops)
    /\ (c = "store" <-> In (op w) store_ops).
Proof.
  intros H.
  destruct (decode_load_store w pc H) as (c & t & Hin & E).
  exists c, t. rewrite <- imm_signed_closed_form.
  split; [exact E |].
  unfold load_store_table in Hin. unfold load_ops, store_ops.
  in_list; injection Hin as Ho <- <-; rewrite <- Ho; cbn [In];
    split; split; intros; try discriminate; try reflexivity; lia.
Qed.

(** [lbu $2, -1($1)] (0x9022FFFF): offset -1. *)
Lemma load_store_operands_witness :
  exists c t,
    decode_instruction 0x9022FFFF 0
    = mkDecodedInstr c
        [VStr t; VInt (rt 0x9022FFFF); VInt (rs 0x9022FFFF);
         VInt ((0x9022FFFF + 0x8000) mod 0x10000 - 0x8000)]
    /\ (c = "load" <-> In (op 0x9022FFFF) load_ops)
    /\ (c = "store" <-> In (op 0x9022FFFF) store_ops).
Proof.
  apply (load_store_operands 0x9022FFFF 0). vm_compute. tauto.
Defined.

(** X11.  The trapping and non-trapping forms are not told apart: SUB
    (funct 0x22) and SUBU (0x23) with the same [rd], [rs], [rt] decode to
    the same arithmetic SUB, and ADDI (opcode 0x08) and ADDIU (0x09) with
    the same [rt], [rs] and immediate to the same immediate ADD. *)
Theorem sub_and_addi_collapse (w1 w2 pc1 pc2 : Z) :
  (op w1 = 0 -> op w2 = 0 ->
   funct w1 = 0x22 -> funct w2 = 0x23 ->
   rd w1 = rd w2 -> rs w1 = rs w2 -> rt w1 = rt w2 ->
   decode_instruction w1 pc1 = decode_instruction w2 pc2
   /\ decode_instruction w1 pc1
      = mkDecodedInstr "arith"
          [VStr "SUB"; VInt (rd w1); VInt (rs w1); VInt (rt w1)])
  /\ (op w1 = 0x08 -> op w2 = 0x09 ->
      rs w1 = rs w2 -> rt w1 = rt w2 -> imm w1 = imm w2 ->
      decode_instruction w1 pc1 = decode_instruction w2 pc2
      /\ decode_instruction w1 pc1
         = mkDecodedInstr "imm"
             [VStr "ADD"; VInt (rt w1); VInt (rs w1); VInt (imm_signed w1)]).
Proof.
  split.
  - intros Ho1 Ho2 Hf1 Hf2 Hd Hs Ht.
    rewrite !decode_op0 by assumption.
    unfold decode_rtype. rewrite Hf1, Hf2, Hd, Hs, Ht. split; reflexivity.
  - intros Ho1 Ho2 Hs Ht Hi.
    rewrite !decode_other by lia.
    unfold decode_itype, imm_signed. rewrite Ho1, Ho2, Hs, Ht, Hi.
    split; reflexivity.
Qed.

(** [sub $3, $1, $2] and [subu $3, $1, $2]. *)
Lemma sub_and_addi_collapse_witness :
  decode_instruction 0x00221822 0 = decode_instruction 0x00221823 4.
Proof.
  apply (proj1 (sub_and_addi_collapse 0x00221822 0x00221823 0 4));
    reflexivity.
Defined.

(** ** Fields the decoder does not read *)

(** X12.  The zero-comparison branches BLEZ and BGTZ carry [None] in place
    of a second register and do not read the [rt] field at all: two such
    words that agree on opcode, [rs] and immediate decode alike.  BEQ and
    BNE carry [rt]. *)
Theorem zero_branches_ignore_rt (w1 w2 pc : Z) :
  (In (op w1) [0x06; 0x07] ->
   (exists m t,
       decode_instruction w1 pc
       = mkDecodedInstr "branch" [VStr m; VInt (rs w1); VNone; VInt t])
   /\ (op w2 = op w1 -> rs w2 = rs w1 -> imm w2 = imm w1 ->
       decode_instruction w2 pc = decode_instruction w1 pc))
  /\ (In (op w1) [0x04; 0x05] ->
      exists m t,
        decode_instruction w1 pc
        = mkDecodedInstr "branch"
            [VStr m; VInt (rs w1); VInt (rt w1); VInt t]).
Proof.
  split.
  - intros H. in_list.
    + split.
      * rewrite decode_other by lia. unfold decode_itype. rewrite <- H.
        do 2 eexists. reflexivity.
      * intros Ho Hs Hi. rewrite !decode_other by lia.
        unfold decode_itype. rewrite Ho, Hs, Hi, <- H. reflexivity.
    + split.
      * rewrite decode_other by lia. unfold decode_itype. rewrite <- H.
        do 2 eexists. reflexivity.
      * intros Ho Hs Hi. rewrite !decode_other by lia.
        unfold decode_itype. rewrite Ho, Hs, Hi, <- H. reflexivity.
  - intros H. in_list;
      (rewrite decode_other by lia); unfold decode_itype; rewrite <- H;
      do 2 eexists; reflexivity.
Qed.

(** [blez $1, 4] with [rt] = 0 (0x18200004) and with [rt] = 31
    (0x183F0004). *)
Lemma zero_branches_ignore_rt_witness :
  decode_instruction 0x183F0004 0x1000 = decode_instruction 0x18200004 0x1000.
Proof.
  apply (proj1 (zero_branches_ignore_rt 0x18200004 0x183F0004 0x1000));
    try reflexivity.
  vm_compute. tauto.
Defined.

(** X13.  Register-form fields an operation has no use for are not checked:
    the arithmetic operations ignore [shamt], SRL and SRA ignore [rs], JR,
    MTHI and MTLO read only [rs], MFHI and MFLO only [rd], JALR only [rd]
    and [rs], and the multiplications and divisions only [rs] and [rt].  A
    word with non-zero bits there decodes like the canonical one. *)
Theorem unused_fields_ignored (w1 w2 pc1 pc2 : Z) :
  op w1 = 0 -> op w2 = 0 -> funct w1 = funct w2 ->
  (In (funct w1) [0x20; 0x21; 0x22; 0x23; 0x24; 0x25; 0x26; 0x27; 0x2A; 0x2B] ->
   rd w1 = rd w2 -> rs w1 = rs w2 -> rt w1 = rt w2 ->
   decode_instruction w1 pc1 = decode_instruction w2 pc2)
  /\ (In (funct w1) [0x02; 0x03] ->
      rd w1 = rd w2 -> rt w1 = rt w2 -> shamt w1 = shamt w2 ->
      decode_instruction w1 pc1 = decode_instruction w2 pc2)
  /\ (In (funct w1) [0x08; 0x11; 0x13] ->
      rs w1 = rs w2 ->
      decode_instruction w1 pc1 = decode_instruction w2 pc2)
  /\ (In (funct w1) [0x10; 0x12] ->
      rd w1 = rd w2 ->
      decode_instruction w1 pc1 = decode_instruction w2 pc2)
  /\ (funct w1 = 0x09 ->
      rd w1 = rd w2 -> rs w1 = rs w2 ->
      decode_instruction w1 pc1 = decode_instruction w2 pc2)
  /\ (In (funct w1) [0x18; 0x19; 0x1A; 0x1B] ->
      rs w1 = rs w2 -> rt w1 = rt w2 ->
      decode_instruction w1 pc1 = decode_instruction w2 pc2).
Proof.
  intros Ho1 Ho2 Hf. rewrite !decode_op0 by assumption.
  unfold decode_rtype. rewrite <- Hf. clear Hf.
  repeat match goal with |- _ /\ _ => split end;
    intros H; intros; in_list;
    match type of H with
    | funct _ = _ => rewrite H
    | _ => rewrite <- H
    end;
    cbn [Z.eqb Pos.eqb orb andb]; congruence.
Qed.

(** [jr $31] with the reserved bits clear (0x03E00008) and set
    (0x03FFFFC8). *)
Lemma unused_fields_ignored_witness :
  decode_instruction 0x03E00008 0 = decode_instruction 0x03FFFFC8 0.
Proof.
  refine (proj1 (proj2 (proj2
            (unused_fields_ignored 0x03E00008 0x03FFFFC8 0 0
               eq_refl eq_refl eq_refl))) _ eq_refl).
  vm_compute. tauto.
Defined.
